(** * Verification of [app/utils/llm.py]

    A shallow embedding of the podcast-script client: the prompt template
    and its formatting, the declared JSON schema, the two authentication
    branches, the single chat-completion request, the decoding of the
    reply, and the memoised tokenizer accessor.  The OpenAI client, the
    identity helper, [json.loads], [tiktoken] and the Streamlit resource
    cache are outside the module; they appear as fields of a [World]
    record that every theorem quantifies over. *)

From Stdlib Require Import ZArith PrimFloat Ascii.
From stdpp Require Import base option list strings gmap.

Set Default Proof Using "Type".
Open Scope Z_scope.

(** ** Python data *)

(** Values built by dict/list literals and returned by [json.loads].
    A dict keeps its insertion order, hence the association list. *)
#[warnings="-register-all"]
Inductive value : Type :=
| VNone
| VBool (b : bool)
| VInt (n : Z)
| VFloat (f : float)
| VStr (s : string)
| VList (items : list value)
| VDict (entries : list (string * value)).

(** Exceptions.  [IndexError], [TypeError], [ValueError], [KeyError] are
    the ones the interpreter itself can raise in this module;
    [Raised cls msg] stands for any exception raised by a collaborator
    (an OpenAI transport or authentication error, a JSON decode error,
    a credential error, ...). *)
Inductive exn : Type :=
| IndexError (msg : string)
| TypeError (msg : string)
| ValueError (msg : string)
| KeyError (key : string)
| Raised (cls msg : string).

(** A call either raises or returns. *)
Definition result (A : Type) : Type := (exn + A)%type.

Definition rbind {A B} (r : result A) (k : A -> result B) : result B :=
  match r with
  | inl e => inl e
  | inr a => k a
  end.

Definition rmap {A B} (f : A -> B) (r : result A) : result B :=
  rbind r (fun a => inr (f a)).

(** An argument with a default: [None] is "the caller passed nothing". *)
Definition arg_or {A} (default : A) (a : option A) : A :=
  match a with Some x => x | None => default end.

(** A keyword argument of a constructor call. *)
Inductive kwarg (A : Type) : Type :=
| Omitted
| Passed (a : A).
Arguments Omitted {A}.
Arguments Passed {A} a.

(** ** Strings *)

Definition dq : string := String "034"%char EmptyString.
Definition nl : string := String "010"%char EmptyString.

(** [sep.join(lines)] *)
Fixpoint join (sep : string) (lines : list string) : string :=
  match lines with
  | [] => EmptyString
  | [l] => l
  | l :: ls => l +:+ sep +:+ join sep ls
  end.

(** [str.isspace] on the ASCII range. *)
Definition isspace (c : ascii) : bool :=
  let n := nat_of_ascii c in
  ((9 <=? n)%nat && (n <=? 13)%nat) || ((28 <=? n)%nat && (n <=? 32)%nat).

Fixpoint lstrip (s : string) : string :=
  match s with
  | EmptyString => EmptyString
  | String c s' => if isspace c then lstrip s' else s
  end.

Definition rstrip (s : string) : string := String.rev (lstrip (String.rev s)).

(** [str.strip()] *)
Definition strip (s : string) : string := rstrip (lstrip s).

(** [str.format(title=...)].  The scanner walks the template once.
    [{{] and [}}] are literal braces, [{title}] is replaced by the
    argument, a lone brace is a [ValueError], and any other field name
    has no matching keyword.  Conversions and format specs do not occur
    in this module and are read as part of the field name. *)
Inductive fmt_state : Type :=
| Text
| AfterOpen
| AfterClose
| InField (name : string).

Definition lbrace : ascii := "{"%char.
Definition rbrace : ascii := "}"%char.

Definition field_value (name title : string) : result string :=
  if decide (name = "title") then inr title
  else if decide (name = EmptyString)
       then inl (IndexError "Replacement index 0 out of range for positional args tuple")
       else inl (KeyError name).

Fixpoint format_go (st : fmt_state) (template title : string) : result string :=
  match template with
  | EmptyString =>
      match st with
      | Text => inr EmptyString
      | AfterClose => inl (ValueError "Single '}' encountered in format string")
      | AfterOpen => inl (ValueError "Single '{' encountered in format string")
      | InField _ => inl (ValueError "expected '}' before end of string")
      end
  | String c rest =>
      match st with
      | Text =>
          if decide (c = lbrace) then format_go AfterOpen rest title
          else if decide (c = rbrace) then format_go AfterClose rest title
          else rmap (String c) (format_go Text rest title)
      | AfterOpen =>
          if decide (c = lbrace) then rmap (String c) (format_go Text rest title)
          else if decide (c = rbrace)
               then rbind (field_value EmptyString title) (fun v =>
                    rmap (String.app v) (format_go Text rest title))
               else format_go (InField (String c EmptyString)) rest title
      | AfterClose =>
          if decide (c = rbrace) then rmap (String c) (format_go Text rest title)
          else inl (ValueError "Single '}' encountered in format string")
      | InField name =>
          if decide (c = rbrace)
          then rbind (field_value name title) (fun v =>
               rmap (String.app v) (format_go Text rest title))
          else format_go (InField (name +:+ String c EmptyString)) rest title
      end
  end.

Definition format (template title : string) : result string :=
  format_go Text template title.

(** ** The prompt template *)

Definition PROMPT_lines : list string :=
  [ EmptyString;
    "Create a highly engaging podcast script named '{title}' between two people based on the input text. Use informal language to enhance the human-like quality of the conversation, including expressions like " +:+ dq +:+ "wow," +:+ dq +:+ " laughter, and pauses such as " +:+ dq +:+ "uhm." +:+ dq;
    EmptyString;
    "# Steps";
    EmptyString;
    "1. **Review the Document(s) and Podcast Title**: Understand the main themes, key points, and tone.";
    "2. **Character Development**: Define two distinct personalities for the hosts.";
    "3. **Script Structure**: Outline the introduction, main discussion, and conclusion.";
    "4. **Incorporate Informal Language**: Use expressions and fillers to create a natural dialogue flow.";
    "5. **Engage with Humor and Emotion**: Include laughter and emotional responses to make the conversation lively.";
    EmptyString;
    "# Output Format";
    EmptyString;
    "- A conversational podcast script in structured JSON.";
    "- Include informal expressions and pauses.";
    "- Clearly mark speaker turns.";
    "- Name the hosts Andrew and Emma.";
    EmptyString;
    "# Examples";
    EmptyString;
    "**Input:**";
    "- Document: [Brief overview of the content, main themes, or key points]";
    "- Podcast Title: " +:+ dq +:+ "Exploring the Wonders of Space" +:+ dq;
    EmptyString;
    "**Output:**";
    "- Speaker 1: " +:+ dq +:+ "Hey everyone, welcome to 'Exploring the Wonders of Space!' I'm [Name], and with me is [Name]." +:+ dq;
    "- Speaker 2: " +:+ dq +:+ "Hey! Uhm, I'm super excited about today's topic. Did you see the latest on the new satellite launch?" +:+ dq;
    "- Speaker 1: " +:+ dq +:+ "Wow, yes! It's incredible. I mean, imagine the data we'll get! [laughter]" +:+ dq;
    "- (Continue with discussion, incorporating humor and informal language)";
    EmptyString;
    "# Notes";
    EmptyString;
    "- Maintain a balance between informal language and clear communication.";
    "- Ensure the conversation is coherent and follows a logical progression.";
    "- Adapt the style and tone based on the document's content and podcast title.";
    "- Think step by step, grasp the key points of the document / paper, and explain them in a conversational tone.";
    "- Make sure the conversation will take about 5 minutes to read out loud.";
    EmptyString ].

Definition PROMPT : string := strip (join nl PROMPT_lines).

(** The text before and after the one replacement field of [PROMPT]. *)
Definition PROMPT_head : string :=
  "Create a highly engaging podcast script named '".

Fixpoint drop_chars (n : nat) (s : string) : string :=
  match n, s with
  | O, _ => s
  | Datatypes.S n', String _ s' => drop_chars n' s'
  | Datatypes.S _, EmptyString => EmptyString
  end.

Definition PROMPT_tail : string :=
  Eval vm_compute in
    drop_chars (String.length PROMPT_head + String.length "{title}") PROMPT.

(** [PROMPT] with [title] in the place of its replacement field. *)
Definition interpolate (title : string) : string :=
  PROMPT_head +:+ title +:+ PROMPT_tail.

(** ** The declared schema *)

Definition JSON_SCHEMA : value :=
  VDict
    [ ("name", VStr "podcast");
      ("strict", VBool true);
      ("description", VStr "An AI generated podcast script.");
      ("schema",
        VDict
          [ ("type", VStr "object");
            ("properties",
              VDict
                [ ("config",
                    VDict
                      [ ("type", VStr "object");
                        ("properties",
                          VDict
                            [ ("language",
                                VDict
                                  [ ("type", VStr "string");
                                    ("description",
                                      VStr "Language code + locale (BCP-47), e.g. en-US or es-PA") ]) ]);
                        ("required", VList [VStr "language"]);
                        ("additionalProperties", VBool false) ]);
                  ("script",
                    VDict
                      [ ("type", VStr "array");
                        ("items",
                          VDict
                            [ ("type", VStr "object");
                              ("properties",
                                VDict
                                  [ ("name",
                                      VDict
                                        [ ("type", VStr "string");
                                          ("description", VStr "Name of the host in lower-case") ]);
                                    ("message", VDict [ ("type", VStr "string") ]) ]);
                              ("required", VList [VStr "name"; VStr "message"]);
                              ("additionalProperties", VBool false) ]) ]) ]);
            ("required", VList [VStr "config"; VStr "script"]);
            ("additionalProperties", VBool false) ]) ].

(** [d.get(k)] on a dict; [None] on anything else. *)
Fixpoint dict_get (k : string) (entries : list (string * value)) : option value :=
  match entries with
  | [] => None
  | (k', v) :: rest => if decide (k = k') then Some v else dict_get k rest
  end.

Definition get (k : string) (v : value) : option value :=
  match v with
  | VDict entries => dict_get k entries
  | _ => None
  end.

(** *** Validation against a schema

    The keywords the declared schema uses: [type] (object, array,
    string, boolean, null), [properties], [required],
    [additionalProperties] (as a boolean) and [items]. *)

Definition type_ok (schema inst : value) : bool :=
  match get "type" schema with
  | None => true
  | Some (VStr t) =>
      if decide (t = "object") then match inst with VDict _ => true | _ => false end
      else if decide (t = "array") then match inst with VList _ => true | _ => false end
      else if decide (t = "string") then match inst with VStr _ => true | _ => false end
      else if decide (t = "boolean") then match inst with VBool _ => true | _ => false end
      else if decide (t = "null") then match inst with VNone => true | _ => false end
      else false
  | Some _ => false
  end.

Definition has_key (entries : list (string * value)) (k : value) : bool :=
  match k with
  | VStr name => bool_decide (is_Some (dict_get name entries))
  | _ => false
  end.

Definition required_ok (schema : value) (entries : list (string * value)) : bool :=
  match get "required" schema with
  | Some (VList names) => forallb (has_key entries) names
  | _ => true
  end.

Definition property_schema (schema : value) (k : string) : option value :=
  match get "properties" schema with
  | Some props => get k props
  | None => None
  end.

Definition additional_ok (schema : value) : bool :=
  match get "additionalProperties" schema with
  | Some (VBool false) => false
  | _ => true
  end.

Fixpoint validate (schema inst : value) {struct inst} : bool :=
  type_ok schema inst &&
  match inst with
  | VDict entries =>
      required_ok schema entries &&
      (fix props (es : list (string * value)) : bool :=
         match es with
         | [] => true
         | (k, v) :: es' =>
             match property_schema schema k with
             | Some s => validate s v
             | None => additional_ok schema
             end && props es'
         end) entries
  | VList xs =>
      match get "items" schema with
      | Some s => forallb (validate s) xs
      | None => true
      end
  | _ => true
  end.

(** The schema proper is the ["schema"] entry of [JSON_SCHEMA]. *)
Definition podcast_schema : value := default VNone (get "schema" JSON_SCHEMA).

(** The schemas of the parts: the config object, the script array and
    a script entry. *)
Definition config_schema : value :=
  default VNone (property_schema podcast_schema "config").

Definition language_schema : value :=
  default VNone (property_schema config_schema "language").

Definition script_schema : value :=
  default VNone (property_schema podcast_schema "script").

Definition entry_schema : value :=
  default VNone (get "items" script_schema).

Definition name_schema : value :=
  default VNone (property_schema entry_schema "name").

Definition message_schema : value :=
  default VNone (property_schema entry_schema "message").

(** *** What the declared schema accepts, spelled out

    Read off [JSON_SCHEMA]: every member of an object is one of the
    declared properties and has the declared form, and the required
    members are there. *)

Definition string_valued (v : value) : Prop :=
  match v with VStr _ => True | _ => False end.

Definition config_conforms (v : value) : Prop :=
  match v with
  | VDict es =>
      is_Some (dict_get "language" es) /\
      Forall (fun kv => fst kv = "language" /\ string_valued (snd kv)) es
  | _ => False
  end.

Definition entry_conforms (v : value) : Prop :=
  match v with
  | VDict es =>
      is_Some (dict_get "name" es) /\
      is_Some (dict_get "message" es) /\
      Forall (fun kv => (fst kv = "name" \/ fst kv = "message") /\ string_valued (snd kv)) es
  | _ => False
  end.

Definition script_conforms (v : value) : Prop :=
  match v with
  | VList xs => Forall entry_conforms xs
  | _ => False
  end.

Definition podcast_conforms (v : value) : Prop :=
  match v with
  | VDict es =>
      is_Some (dict_get "config" es) /\
      is_Some (dict_get "script" es) /\
      Forall (fun kv => (fst kv = "config" /\ config_conforms (snd kv)) \/
                        (fst kv = "script" /\ script_conforms (snd kv))) es
  | _ => False
  end.

Definition is_dict (v : value) : Prop :=
  match v with VDict _ => True | _ => False end.

(** The shape the schema is meant to enforce: an object with a [config]
    object holding a [language] string and a [script] array whose
    entries all carry [name] and [message]. *)
Definition podcast_shape (p : value) : Prop :=
  exists config lang script,
    get "config" p = Some config /\
    is_dict config /\
    get "language" config = Some (VStr lang) /\
    get "script" p = Some (VList script) /\
    Forall (fun entry => is_Some (get "name" entry) /\ is_Some (get "message" entry)) script.

(** ** The OpenAI client's data *)

(** A token provider is a callback that yields a bearer token. *)
Definition TokenProvider : Type := unit -> result string.

(** The keyword arguments of [AzureOpenAI(...)].  [os.getenv] returns
    [None] for an unset variable, hence the options. *)
Record ClientArgs : Type := {
  api_key : kwarg (option string);
  api_version : kwarg string;
  azure_endpoint : kwarg (option string);
  azure_ad_token_provider : kwarg TokenProvider
}.

(** A constructed client is known by the arguments it was built from. *)
Definition Client : Type := ClientArgs.

Record Message : Type := {
  role : string;
  content : string
}.

(** The keyword arguments of [client.chat.completions.create(...)]. *)
Record CreateArgs : Type := {
  messages : list Message;
  model : string;
  temperature : float;
  response_format : value;
  max_tokens : Z
}.

Record CompletionUsage : Type := {
  completion_tokens : Z;
  prompt_tokens : Z;
  total_tokens : Z
}.

(** [ChatCompletionMessage.content] is [Optional[str]]. *)
Record ChatCompletionMessage : Type := {
  msg_content : option string
}.

Record Choice : Type := {
  message : ChatCompletionMessage
}.

(** [ChatCompletion.usage] is [Optional[CompletionUsage]]. *)
Record ChatCompletion : Type := {
  choices : list Choice;
  cc_usage : option CompletionUsage
}.

Record PodcastScriptResponse : Type := {
  podcast : value;
  usage : option CompletionUsage
}.

(** A tokenizer object, known by its identity and the encoding it holds. *)
Record Encoding : Type := {
  enc_id : nat;
  enc_name : string
}.

(** ** The world outside the module *)

Record World : Type := {
  (** [os.environ] *)
  environ : gmap string string;
  (** [utils.identity.get_token_provider()] *)
  get_token_provider : result TokenProvider;
  (** [AzureOpenAI(...)]: [Some e] when the constructor raises [e] *)
  AzureOpenAI : ClientArgs -> option exn;
  (** [client.chat.completions.create(...)] *)
  chat_completions_create : Client -> CreateArgs -> result ChatCompletion;
  (** [json.loads(s)] on a string *)
  json_loads : string -> result value;
  (** [tiktoken.encoding_for_model(name)]; the number counts the
      calls made before this one *)
  encoding_for_model : string -> nat -> result Encoding
}.

(** [os.getenv(name)] and [os.getenv(name, default)] *)
Definition getenv (w : World) (name : string) : option string :=
  environ w !! name.

Definition getenv_default (w : World) (name default : string) : string :=
  match environ w !! name with
  | Some v => v
  | None => default
  end.

(** Truth value of an [os.getenv] result: [None] and the empty string
    are false. *)
Definition truthy (v : option string) : bool :=
  match v with
  | Some (String _ _) => true
  | _ => false
  end.

(** ** Calls and their trace *)

(** What the function does to the outside, in order. *)
Inductive Event : Type :=
| EvTokenProvider
| EvClient (args : ClientArgs)
| EvCreate (client : Client) (args : CreateArgs).

(** A computation appends to the trace and raises or returns. *)
Definition M (A : Type) : Type := list Event -> result A * list Event.

Definition ret {A} (a : A) : M A := fun tr => (inr a, tr).

Definition raise {A} (e : exn) : M A := fun tr => (inl e, tr).

Definition bind {A B} (c : M A) (k : A -> M B) : M B :=
  fun tr =>
    match c tr with
    | (inl e, tr') => (inl e, tr')
    | (inr a, tr') => k a tr'
    end.

Definition lift {A} (r : result A) : M A := fun tr => (r, tr).

Definition call {A} (ev : Event) (r : result A) : M A :=
  fun tr => (r, tr ++ [ev]).

Notation "x <- c ;; k" := (bind c (fun x => k))
  (at level 100, c at next level, right associativity).

Definition run {A} (c : M A) : result A * list Event := c [].

Definition call_get_token_provider (w : World) : M TokenProvider :=
  call EvTokenProvider (get_token_provider w).

Definition call_AzureOpenAI (w : World) (args : ClientArgs) : M Client :=
  call (EvClient args)
       (match AzureOpenAI w args with
        | Some e => inl e
        | None => inr args
        end).

Definition call_create (w : World) (client : Client) (args : CreateArgs) : M ChatCompletion :=
  call (EvCreate client args) (chat_completions_create w client args).

(** [xs[0]] *)
Definition index0 {A} (xs : list A) : result A :=
  match xs with
  | x :: _ => inr x
  | [] => inl (IndexError "list index out of range")
  end.

(** [json.loads(message)] where [message] may be [None]. *)
Definition call_json_loads (w : World) (message : option string) : result value :=
  match message with
  | Some s => json_loads w s
  | None =>
      inl (TypeError "the JSON object must be str, bytes or bytearray, not NoneType")
  end.

(** ** [document_to_podcast_script] *)

Definition API_VERSION : string := "2024-09-01-preview".

Definition key_client_args (w : World) : ClientArgs :=
  {| api_key := Passed (getenv w "AZURE_OPENAI_KEY");
     api_version := Passed API_VERSION;
     azure_endpoint := Passed (getenv w "AZURE_OPENAI_ENDPOINT");
     azure_ad_token_provider := Omitted |}.

Definition token_client_args (w : World) (tp : TokenProvider) : ClientArgs :=
  {| api_key := Passed (getenv w "AZURE_OPENAI_KEY");
     api_version := Passed API_VERSION;
     azure_endpoint := Omitted;
     azure_ad_token_provider := Passed tp |}.

Definition make_client (w : World) : M Client :=
  if truthy (getenv w "AZURE_OPENAI_KEY")
  then call_AzureOpenAI w (key_client_args w)
  else
    tp <- call_get_token_provider w ;;
    call_AzureOpenAI w (token_client_args w tp).

#[warnings="-inexact-float"]
Definition create_args (w : World) (system_content document : string) : CreateArgs :=
  {| messages :=
       [ {| role := "system"; content := system_content |};
         {| role := "user";
            content := "<documents>" +:+ document +:+ "</documents>" |} ];
     model := getenv_default w "AZURE_OPENAI_MODEL_DEPLOYMENT" "gpt-4o";
     temperature := 0.7%float;
     response_format :=
       VDict [("type", VStr "json_schema"); ("json_schema", JSON_SCHEMA)];
     max_tokens := 8000 |}.

Definition DEFAULT_TITLE : string := "AI in Action".

(** [title] is [None] when the caller leaves the argument out. *)
Definition document_to_podcast_script
    (w : World) (document : string) (title : option string) : M PodcastScriptResponse :=
  let title := arg_or DEFAULT_TITLE title in
  client <- make_client w ;;
  system_content <- lift (format PROMPT title) ;;
  chat_completion <- call_create w client (create_args w system_content document) ;;
  choice <- lift (index0 (choices chat_completion)) ;;
  let message := msg_content (message choice) in
  json_message <- lift (call_json_loads w message) ;;
  ret {| podcast := json_message; usage := cc_usage chat_completion |}.

(** *** Reading a trace *)

(** The chat-completion requests of a trace, each with the client that
    sent it. *)
Fixpoint requests (tr : list Event) : list (Client * CreateArgs) :=
  match tr with
  | [] => []
  | EvCreate c a :: tr' => (c, a) :: requests tr'
  | _ :: tr' => requests tr'
  end.

(** The argument sets the client constructor was called with. *)
Fixpoint clients (tr : list Event) : list ClientArgs :=
  match tr with
  | [] => []
  | EvClient a :: tr' => a :: clients tr'
  | _ :: tr' => clients tr'
  end.

(** How often the token provider was asked for. *)
Fixpoint token_provider_calls (tr : list Event) : nat :=
  match tr with
  | [] => O
  | EvTokenProvider :: tr' => Datatypes.S (token_provider_calls tr')
  | _ :: tr' => token_provider_calls tr'
  end.

Inductive AuthPath : Type :=
| KeyAuth
| TokenAuth.

(** The authentication path a trace shows: the first thing the function
    does is either to build the client from the static key or to fetch
    the token provider. *)
Definition path_taken (tr : list Event) : option AuthPath :=
  match tr with
  | EvClient a :: _ =>
      match azure_ad_token_provider a with
      | Omitted => Some KeyAuth
      | Passed _ => None
      end
  | EvTokenProvider :: _ => Some TokenAuth
  | _ => None
  end.

(** Selection of the path by the mere presence of the key variable. *)
Definition selected_by_presence (w : World) (tr : list Event) : Prop :=
  path_taken tr =
  Some (if bool_decide (is_Some (getenv w "AZURE_OPENAI_KEY")) then KeyAuth else TokenAuth).

(** Selection of the path by the truth value of the key variable. *)
Definition selected_by_truthiness (w : World) (tr : list Event) : Prop :=
  path_taken tr =
  Some (if truthy (getenv w "AZURE_OPENAI_KEY") then KeyAuth else TokenAuth).

(** The request the function sends for a document and a title. *)
Definition request (w : World) (document title : string) : CreateArgs :=
  create_args w (interpolate title) document.

(** What the function makes of a completion. *)
Definition parse_completion (w : World) (cc : ChatCompletion) : result PodcastScriptResponse :=
  rbind (index0 (choices cc)) (fun choice =>
  rbind (call_json_loads w (msg_content (message choice))) (fun json_message =>
  inr {| podcast := json_message; usage := cc_usage cc |})).

(** The ways a collaborator can fail a call for [document] and [title]:
    the token provider cannot be had, the client constructor raises,
    the request raises, or the reply's text does not decode. *)
Inductive failure (w : World) (document title : string) : exn -> Prop :=
| token_provider_raises e :
    truthy (getenv w "AZURE_OPENAI_KEY") = false ->
    get_token_provider w = inl e ->
    failure w document title e
| key_client_raises e :
    truthy (getenv w "AZURE_OPENAI_KEY") = true ->
    AzureOpenAI w (key_client_args w) = Some e ->
    failure w document title e
| token_client_raises tp e :
    truthy (getenv w "AZURE_OPENAI_KEY") = false ->
    get_token_provider w = inr tp ->
    AzureOpenAI w (token_client_args w tp) = Some e ->
    failure w document title e
| request_raises c e :
    fst (run (make_client w)) = inr c ->
    chat_completions_create w c (request w document title) = inl e ->
    failure w document title e
| decode_raises c cc choice rest s e :
    fst (run (make_client w)) = inr c ->
    chat_completions_create w c (request w document title) = inr cc ->
    choices cc = choice :: rest ->
    msg_content (message choice) = Some s ->
    json_loads w s = inl e ->
    failure w document title e.

(** ** [get_encoding] *)

(** The process: the entry [st.cache_resource] keeps for [get_encoding]
    (the function takes no argument, so there is one entry at most) and
    the model names [tiktoken] was asked for so far. *)
Record Process : Type := {
  cache : option Encoding;
  tiktoken_calls : list string
}.

Definition fresh_process : Process := {| cache := None; tiktoken_calls := [] |}.

Definition ProcM (A : Type) : Type := Process -> result A * Process.

(** The undecorated body. *)
Definition get_encoding_body (w : World) : ProcM Encoding :=
  fun p =>
    (encoding_for_model w "gpt-4o" (length (tiktoken_calls p)),
     {| cache := cache p; tiktoken_calls := tiktoken_calls p ++ ["gpt-4o"] |}).

(** [@st.cache_resource]: a hit returns the stored object; a miss runs
    the body and stores what it returns; a raise stores nothing. *)
Definition cache_resource (body : ProcM Encoding) : ProcM Encoding :=
  fun p =>
    match cache p with
    | Some e => (inr e, p)
    | None =>
        match body p with
        | (inr e, p') => (inr e, {| cache := Some e; tiktoken_calls := tiktoken_calls p' |})
        | (inl x, p') => (inl x, p')
        end
    end.

Definition get_encoding (w : World) : ProcM Encoding :=
  cache_resource (get_encoding_body w).

(** [n] calls in a row, with what each gave. *)
Fixpoint get_encoding_times (w : World) (n : nat) (p : Process)
    : list (result Encoding) * Process :=
  match n with
  | O => ([], p)
  | Datatypes.S n' =>
      let (r, p') := get_encoding w p in
      let (rs, p'') := get_encoding_times w n' p' in
      (r :: rs, p'')
  end.

(** What holds of a process that only [get_encoding] has touched: the
    cached object came from [tiktoken] asked for gpt-4o, and [tiktoken]
    was asked for nothing else. *)
Definition bound_to_gpt4o (w : World) (p : Process) : Prop :=
  (forall e, cache p = Some e -> exists i, encoding_for_model w "gpt-4o" i = inr e) /\
  Forall (fun name => name = "gpt-4o") (tiktoken_calls p).

(** ** Sample worlds

    Concrete collaborators on which the statements below are run. *)

Definition sample_token_provider : TokenProvider := fun _ => inr "bearer-token".

Definition sample_usage : CompletionUsage :=
  {| completion_tokens := 120; prompt_tokens := 450; total_tokens := 570 |}.

Definition quoted (s : string) : string := dq +:+ s +:+ dq.

(** A reply that follows the schema, as text and as the decoded value. *)
Definition sample_script_text : string :=
  "{" +:+ quoted "config" +:+ ": {" +:+ quoted "language" +:+ ": " +:+ quoted "en-US" +:+ "}, "
  +:+ quoted "script" +:+ ": [{" +:+ quoted "name" +:+ ": " +:+ quoted "andrew" +:+ ", "
  +:+ quoted "message" +:+ ": " +:+ quoted "Hi" +:+ "}]}".

Definition sample_script : value :=
  VDict [("config", VDict [("language", VStr "en-US")]);
         ("script", VList [VDict [("name", VStr "andrew"); ("message", VStr "Hi")]])].

(** [json.loads] tabulated on the texts the samples use; every other
    text of the samples is not JSON. *)
Definition sample_json_loads (s : string) : result value :=
  if decide (s = sample_script_text) then inr sample_script
  else if decide (s = "{}") then inr (VDict [])
  else if decide (s = "42") then inr (VInt 42)
  else inl (Raised "JSONDecodeError" "Expecting value: line 1 column 1 (char 0)").

Definition sample_encoding_for_model (name : string) (n : nat) : result Encoding :=
  if decide (name = "gpt-4o") then inr {| enc_id := n; enc_name := "o200k_base" |}
  else inl (KeyError name).

Definition reply_with (content : option string) : ChatCompletion :=
  {| choices := [ {| message := {| msg_content := content |} |} ];
     cc_usage := Some sample_usage |}.

(** A world with the given environment in which the provider answers
    every request with [reply]. *)
Definition sample_world (env : gmap string string) (reply : result ChatCompletion) : World :=
  {| environ := env;
     get_token_provider := inr sample_token_provider;
     AzureOpenAI := fun _ => None;
     chat_completions_create := fun _ _ => reply;
     json_loads := sample_json_loads;
     encoding_for_model := sample_encoding_for_model |}.

Definition key_env : gmap string string :=
  {[ "AZURE_OPENAI_KEY" := "secret";
     "AZURE_OPENAI_ENDPOINT" := "https://example.openai.azure.com" ]}.

Definition deployment_env : gmap string string :=
  {[ "AZURE_OPENAI_KEY" := "secret";
     "AZURE_OPENAI_ENDPOINT" := "https://example.openai.azure.com";
     "AZURE_OPENAI_MODEL_DEPLOYMENT" := "gpt-35-turbo" ]}.

Definition empty_key_env : gmap string string :=
  {[ "AZURE_OPENAI_KEY" := EmptyString ]}.

(** A world in which the identity helper cannot supply a provider. *)
Definition no_identity_world (env : gmap string string) : World :=
  {| environ := env;
     get_token_provider := inl (Raised "CredentialUnavailableError" "no credential");
     AzureOpenAI := fun _ => None;
     chat_completions_create := fun _ _ => inr (reply_with (Some sample_script_text));
     json_loads := sample_json_loads;
     encoding_for_model := sample_encoding_for_model |}.

(** A world whose [tiktoken] cannot fetch its data on the first two
    asks and can afterwards. *)
Definition flaky_encoding_for_model (name : string) (n : nat) : result Encoding :=
  if (n <? 2)%nat then inl (Raised "ConnectionError" "Max retries exceeded")
  else sample_encoding_for_model name n.

Definition flaky_world : World :=
  {| environ := key_env;
     get_token_provider := inr sample_token_provider;
     AzureOpenAI := fun _ => None;
     chat_completions_create := fun _ _ => inr (reply_with (Some sample_script_text));
     json_loads := sample_json_loads;
     encoding_for_model := flaky_encoding_for_model |}.

(** The world [w] with another outcome of [get_token_provider()]. *)
Definition with_token_provider (w : World) (tp : result TokenProvider) : World :=
  {| environ := environ w;
     get_token_provider := tp;
     AzureOpenAI := AzureOpenAI w;
     chat_completions_create := chat_completions_create w;
     json_loads := json_loads w;
     encoding_for_model := encoding_for_model w |}.

(** * Theorems *)

Example ex_validate_ok :
  validate podcast_schema
    (VDict [("config", VDict [("language", VStr "en-US")]);
            ("script", VList [VDict [("name", VStr "andrew"); ("message", VStr "Hi")]])]) = true.
Proof. reflexivity. Qed.

Example ex_validate_empty : validate podcast_schema (VDict []) = false.
Proof. reflexivity. Qed.

Example ex_validate_int : validate podcast_schema (VInt 42) = false.
Proof. reflexivity. Qed.

Example ex_validate_missing_message :
  validate podcast_schema
    (VDict [("config", VDict [("language", VStr "en-US")]);
            ("script", VList [VDict [("name", VStr "andrew")]])]) = false.
Proof. reflexivity. Qed.

(** ** The prompt *)

Lemma PROMPT_split : PROMPT = PROMPT_head +:+ "{title}" +:+ PROMPT_tail.
Proof. vm_compute. reflexivity. Qed.

Lemma format_PROMPT title : format PROMPT title = inr (interpolate title).
Proof. vm_compute. reflexivity. Qed.

(** ** Running the function *)

Lemma make_client_run w :
  run (make_client w) =
  if truthy (getenv w "AZURE_OPENAI_KEY")
  then (match AzureOpenAI w (key_client_args w) with
        | Some e => inl e
        | None => inr (key_client_args w)
        end, [EvClient (key_client_args w)])
  else match get_token_provider w with
       | inl e => (inl e, [EvTokenProvider])
       | inr tp =>
           (match AzureOpenAI w (token_client_args w tp) with
            | Some e => inl e
            | None => inr (token_client_args w tp)
            end, [EvTokenProvider; EvClient (token_client_args w tp)])
       end.
Proof.
  unfold run, make_client.
  destruct (truthy _); [reflexivity|].
  unfold bind, call_get_token_provider, call_AzureOpenAI, call.
  destruct (get_token_provider w); reflexivity.
Qed.

(** The whole run in one equation: the client is made, then one request
    is sent with it and its reply parsed. *)
Lemma document_to_podcast_script_run w document title :
  run (document_to_podcast_script w document title) =
  match run (make_client w) with
  | (inl e, tr) => (inl e, tr)
  | (inr c, tr) =>
      let req := request w document (arg_or DEFAULT_TITLE title) in
      (rbind (chat_completions_create w c req) (parse_completion w),
       tr ++ [EvCreate c req])
  end.
Proof.
  unfold run, document_to_podcast_script, bind, lift.
  rewrite format_PROMPT.
  destruct (make_client w []) as [[e|c] tr]; [reflexivity|].
  unfold call_create, call, request, parse_completion, ret; cbv zeta.
  destruct (chat_completions_create _ _ _) as [e|cc]; [reflexivity|].
  cbn [rbind].
  destruct (index0 (choices cc)) as [e|ch]; [reflexivity|].
  cbn [rbind].
  destruct (call_json_loads _ _); reflexivity.
Qed.

Lemma requests_app tr1 tr2 : requests (tr1 ++ tr2) = requests tr1 ++ requests tr2.
Proof.
  induction tr1 as [|[| |] tr1 IH]; simpl; [reflexivity| | |]; rewrite ?IH; reflexivity.
Qed.

Lemma clients_app tr1 tr2 : clients (tr1 ++ tr2) = clients tr1 ++ clients tr2.
Proof.
  induction tr1 as [|[| |] tr1 IH]; simpl; [reflexivity| | |]; rewrite ?IH; reflexivity.
Qed.

Lemma token_provider_calls_app tr1 tr2 :
  token_provider_calls (tr1 ++ tr2) = (token_provider_calls tr1 + token_provider_calls tr2)%nat.
Proof.
  induction tr1 as [|[| |] tr1 IH]; simpl; [reflexivity| | |]; rewrite ?IH; reflexivity.
Qed.

(** Making the client sends no request. *)
Lemma make_client_requests w : requests (snd (run (make_client w))) = [].
Proof.
  rewrite make_client_run.
  destruct (truthy _); [reflexivity|].
  destruct (get_token_provider w); reflexivity.
Qed.

(** Every client the function builds carries the fixed API version. *)
Lemma make_client_api_version w c :
  fst (run (make_client w)) = inr c -> api_version c = Passed API_VERSION.
Proof.
  rewrite make_client_run.
  destruct (truthy _).
  - simpl. destruct (AzureOpenAI _ _); [discriminate|]. intros [= <-]. reflexivity.
  - destruct (get_token_provider w) as [e|tp]; [discriminate|].
    simpl. destruct (AzureOpenAI _ _); [discriminate|]. intros [= <-]. reflexivity.
Qed.

(** The requests of a run: none if the client could not be made, else
    the one request. *)
Lemma document_to_podcast_script_requests w document title :
  requests (snd (run (document_to_podcast_script w document title))) =
  match fst (run (make_client w)) with
  | inl _ => []
  | inr c => [(c, request w document (arg_or DEFAULT_TITLE title))]
  end.
Proof.
  rewrite document_to_podcast_script_run.
  pose proof (make_client_requests w) as Hreq.
  destruct (run (make_client w)) as [[e|c] tr]; simpl in *; [exact Hreq|].
  rewrite requests_app, Hreq. reflexivity.
Qed.

Lemma In_requests c a tr : In (EvCreate c a) tr <-> In (c, a) (requests tr).
Proof.
  induction tr as [|ev tr IH]; simpl; [tauto|].
  destruct ev as [|a'|c' a']; simpl.
  - rewrite <- IH. split; [intros [H|H]; [discriminate|exact H] | auto].
  - rewrite <- IH. split; [intros [H|H]; [discriminate|exact H] | auto].
  - rewrite <- IH. split; (intros [H|H]; [left; congruence | right; exact H]).
Qed.

(** ** The request *)

(** C1, as the code has it: for every document and title, a run in
    which the client is built sends exactly one chat-completion request,
    with exactly two messages: the system message is the prompt template
    with the title interpolated (it starts with the fixed opening, the
    title in quotes), the user message is the document between the
    documents tags, unchanged. *)
Theorem one_request_with_two_messages w document title c :
  fst (run (make_client w)) = inr c ->
  requests (snd (run (document_to_podcast_script w document (Some title)))) =
    [(c, request w document title)] /\
  messages (request w document title) =
    [ {| role := "system"; content := interpolate title |};
      {| role := "user"; content := "<documents>" +:+ document +:+ "</documents>" |} ] /\
  format PROMPT title = inr (interpolate title) /\
  exists rest,
    interpolate title =
    "Create a highly engaging podcast script named '" +:+ title +:+ "'" +:+ rest.
Proof.
  intros Hc.
  rewrite document_to_podcast_script_requests, Hc.
  split; [reflexivity|].
  split; [reflexivity|].
  split; [apply format_PROMPT|].
  exists (drop_chars 1 PROMPT_tail).
  vm_compute. reflexivity.
Qed.

Lemma one_request_with_two_messages_witness :
  let w := sample_world key_env (inr (reply_with (Some sample_script_text))) in
  requests (snd (run (document_to_podcast_script w "The sky is blue." (Some "Space Talk")))) =
    [(key_client_args w, request w "The sky is blue." "Space Talk")] /\
  messages (request w "The sky is blue." "Space Talk") =
    [ {| role := "system"; content := interpolate "Space Talk" |};
      {| role := "user"; content := "<documents>The sky is blue.</documents>" |} ].
Proof.
  intros w.
  assert (Hc : fst (run (make_client w)) = inr (key_client_args w))
    by (vm_compute; reflexivity).
  destruct (one_request_with_two_messages w "The sky is blue." "Space Talk" _ Hc)
    as (H1 & H2 & _).
  split; [exact H1 | exact H2].
Defined.

(** C1 as stated fails: the request is sent only once the client is
    built.  With no usable key and an identity helper that raises, the
    call for a document and a title ends before any request is sent. *)
Lemma one_request_counterexample :
  let w := no_identity_world empty_key_env in
  let out := run (document_to_podcast_script w "The sky is blue." (Some "Space Talk")) in
  fst out = inl (Raised "CredentialUnavailableError" "no credential") /\
  requests (snd out) = [] /\
  length (requests (snd out)) <> 1%nat.
Proof.
  intros w out.
  assert (Hreq : requests (snd out) = []) by (vm_compute; reflexivity).
  split; [vm_compute; reflexivity|].
  split; [exact Hreq|].
  rewrite Hreq. discriminate.
Qed.

(** C5: every request the function sends goes through a client built for
    API version 2024-09-01-preview and carries temperature 0.7, a cap of
    8000 output tokens, the strict JSON-schema response format named
    podcast, and the deployment named by AZURE_OPENAI_MODEL_DEPLOYMENT,
    or gpt-4o when that variable is unset. *)
#[warnings="-inexact-float"]
Theorem request_parameters w document title c args :
  In (EvCreate c args) (snd (run (document_to_podcast_script w document title))) ->
  api_version c = Passed "2024-09-01-preview" /\
  temperature args = 0.7%float /\
  max_tokens args = 8000 /\
  response_format args =
    VDict [("type", VStr "json_schema"); ("json_schema", JSON_SCHEMA)] /\
  get "name" JSON_SCHEMA = Some (VStr "podcast") /\
  get "strict" JSON_SCHEMA = Some (VBool true) /\
  model args =
    match getenv w "AZURE_OPENAI_MODEL_DEPLOYMENT" with
    | Some deployment => deployment
    | None => "gpt-4o"
    end.
Proof.
  intros Hin. apply In_requests in Hin.
  rewrite document_to_podcast_script_requests in Hin.
  destruct (fst (run (make_client w))) as [e|c'] eqn:Hc; [destruct Hin|].
  destruct Hin as [[= <- <-]|[]].
  split; [exact (make_client_api_version w c' Hc)|].
  repeat (split; [reflexivity|]). reflexivity.
Qed.

Lemma request_parameters_witness :
  let w := sample_world key_env (inr (reply_with (Some sample_script_text))) in
  api_version (key_client_args w) = Passed "2024-09-01-preview" /\
  max_tokens (request w "The sky is blue." "Space Talk") = 8000 /\
  model (request w "The sky is blue." "Space Talk") = "gpt-4o".
Proof.
  intros w.
  assert (Hin : In (EvCreate (key_client_args w) (request w "The sky is blue." "Space Talk"))
                   (snd (run (document_to_podcast_script w "The sky is blue." (Some "Space Talk"))))).
  { assert (Hc : fst (run (make_client w)) = inr (key_client_args w))
      by (vm_compute; reflexivity).
    apply In_requests.
    rewrite document_to_podcast_script_requests, Hc.
    left. reflexivity. }
  destruct (request_parameters w _ _ _ _ Hin) as (H1 & _ & H3 & _ & _ & _ & H7).
  split; [exact H1|]. split; [exact H3|exact H7].
Defined.

(** C8: when the caller leaves the title out, the function runs as for
    the title AI in Action: the system message of its request is the
    prompt template interpolated with that title. *)
Theorem default_title w document c :
  fst (run (make_client w)) = inr c ->
  document_to_podcast_script w document None =
    document_to_podcast_script w document (Some "AI in Action") /\
  requests (snd (run (document_to_podcast_script w document None))) =
    [(c, request w document "AI in Action")] /\
  head (messages (request w document "AI in Action")) =
    Some {| role := "system"; content := interpolate "AI in Action" |} /\
  format PROMPT "AI in Action" = inr (interpolate "AI in Action").
Proof.
  intros Hc.
  split; [reflexivity|].
  rewrite document_to_podcast_script_requests, Hc.
  split; [reflexivity|].
  split; [reflexivity|].
  apply format_PROMPT.
Qed.

Lemma default_title_witness :
  let w := sample_world key_env (inr (reply_with (Some sample_script_text))) in
  requests (snd (run (document_to_podcast_script w "The sky is blue." None))) =
    [(key_client_args w, request w "The sky is blue." "AI in Action")].
Proof.
  intros w.
  assert (Hc : fst (run (make_client w)) = inr (key_client_args w))
    by (vm_compute; reflexivity).
  exact (proj1 (proj2 (default_title w "The sky is blue." _ Hc))).
Defined.

(** ** Authentication *)

(** The trace of a run begins with the trace of making the client. *)
Lemma document_to_podcast_script_trace w document title :
  exists tail,
    snd (run (document_to_podcast_script w document title)) =
    snd (run (make_client w)) ++ tail /\
    clients tail = [] /\ token_provider_calls tail = O.
Proof.
  rewrite document_to_podcast_script_run.
  destruct (run (make_client w)) as [[e|c] tr]; simpl.
  - exists []. rewrite app_nil_r. auto.
  - eexists. split; [reflexivity|]. split; reflexivity.
Qed.

Lemma path_taken_app tr tail : tr <> [] -> path_taken (tr ++ tail) = path_taken tr.
Proof. destruct tr; [congruence|reflexivity]. Qed.

Lemma make_client_trace_nonempty w : snd (run (make_client w)) <> [].
Proof.
  rewrite make_client_run.
  destruct (truthy _); [discriminate|].
  destruct (get_token_provider w); discriminate.
Qed.

Lemma auth_trace w document title :
  let tr := snd (run (document_to_podcast_script w document title)) in
  path_taken tr =
    Some (if truthy (getenv w "AZURE_OPENAI_KEY") then KeyAuth else TokenAuth) /\
  if truthy (getenv w "AZURE_OPENAI_KEY")
  then clients tr = [key_client_args w] /\ token_provider_calls tr = O
  else token_provider_calls tr = 1%nat /\
       clients tr =
         match get_token_provider w with
         | inr tp => [token_client_args w tp]
         | inl _ => []
         end.
Proof.
  cbv zeta.
  destruct (document_to_podcast_script_trace w document title) as (tail & -> & Hcl & Htp).
  rewrite path_taken_app by apply make_client_trace_nonempty.
  rewrite clients_app, token_provider_calls_app, Hcl, Htp, app_nil_r, Nat.add_0_r.
  rewrite make_client_run.
  destruct (truthy _).
  - simpl. auto.
  - destruct (get_token_provider w); simpl; auto.
Qed.

(** C3, as the code has it: every run takes exactly one of the two
    authentication paths, chosen by the truth value of AZURE_OPENAI_KEY.
    A non-empty key builds the client once from the static key and the
    AZURE_OPENAI_ENDPOINT value and never asks for a token provider; an
    unset or empty key asks for the token provider once and builds the
    client with it. *)
Theorem auth_path_by_truthiness w document title :
  let tr := snd (run (document_to_podcast_script w document title)) in
  selected_by_truthiness w tr /\
  if truthy (getenv w "AZURE_OPENAI_KEY")
  then clients tr = [key_client_args w] /\ token_provider_calls tr = O
  else token_provider_calls tr = 1%nat /\
       clients tr =
         match get_token_provider w with
         | inr tp => [token_client_args w tp]
         | inl _ => []
         end.
Proof.
  exact (auth_trace w document title).
Qed.

(** C3 as stated fails: with the key variable set to the empty string
    the variable is present, yet the token-provider path is taken. *)
Lemma auth_path_by_presence_counterexample :
  let w := sample_world empty_key_env (inr (reply_with (Some sample_script_text))) in
  let tr := snd (run (document_to_podcast_script w "The sky is blue." None)) in
  is_Some (getenv w "AZURE_OPENAI_KEY") /\
  path_taken tr = Some TokenAuth /\
  ~ selected_by_presence w tr.
Proof.
  intros w tr.
  split; [exists EmptyString; vm_compute; reflexivity|].
  split; [vm_compute; reflexivity|].
  unfold selected_by_presence.
  assert (Hp : path_taken tr = Some TokenAuth) by (vm_compute; reflexivity).
  rewrite Hp.
  rewrite bool_decide_eq_true_2 by (exists EmptyString; vm_compute; reflexivity).
  discriminate.
Qed.

(** C9: the path is chosen by the truth value of the key, not by its
    presence.  With the key set to the empty string the token-provider
    path is taken.  On that path, once the token provider is had, the
    client constructor is called exactly once, with what
    [os.getenv("AZURE_OPENAI_KEY")] returned as [api_key], falsy as it
    is, with the provider, and with no [azure_endpoint] argument.  The
    endpoint is passed on the key path only, where the constructor is
    called once with the key and the endpoint. *)
Theorem key_truthiness_selects_path w document title :
  let tr := snd (run (document_to_podcast_script w document title)) in
  (getenv w "AZURE_OPENAI_KEY" = Some EmptyString -> path_taken tr = Some TokenAuth) /\
  (forall a, In a (clients tr) ->
     api_key a = Passed (getenv w "AZURE_OPENAI_KEY") /\
     (truthy (getenv w "AZURE_OPENAI_KEY") = true ->
        azure_endpoint a = Passed (getenv w "AZURE_OPENAI_ENDPOINT") /\
        azure_ad_token_provider a = Omitted) /\
     (truthy (getenv w "AZURE_OPENAI_KEY") = false ->
        azure_endpoint a = Omitted /\
        exists tp, azure_ad_token_provider a = Passed tp)) /\
  (truthy (getenv w "AZURE_OPENAI_KEY") = false ->
     path_taken tr = Some TokenAuth /\
     token_provider_calls tr = 1%nat /\
     forall tp, get_token_provider w = inr tp ->
       clients tr = [token_client_args w tp] /\
       api_key (token_client_args w tp) = Passed (getenv w "AZURE_OPENAI_KEY") /\
       azure_endpoint (token_client_args w tp) = Omitted /\
       azure_ad_token_provider (token_client_args w tp) = Passed tp) /\
  (truthy (getenv w "AZURE_OPENAI_KEY") = true ->
     path_taken tr = Some KeyAuth /\
     clients tr = [key_client_args w] /\
     api_key (key_client_args w) = Passed (getenv w "AZURE_OPENAI_KEY") /\
     azure_endpoint (key_client_args w) = Passed (getenv w "AZURE_OPENAI_ENDPOINT")).
Proof.
  cbv zeta.
  destruct (auth_trace w document title) as [Hsel Hcl].
  split; [|split; [|split]].
  - intros Hkey. rewrite Hsel, Hkey. reflexivity.
  - intros a Ha. destruct (truthy _) eqn:Hk.
    + destruct Hcl as [Hcl _]. rewrite Hcl in Ha. destruct Ha as [<-|[]].
      split; [reflexivity|]. split; [auto|discriminate].
    + destruct Hcl as [_ Hcl]. rewrite Hcl in Ha.
      destruct (get_token_provider w) as [e|tp]; [destruct Ha|].
      destruct Ha as [<-|[]].
      split; [reflexivity|]. split; [discriminate|]. intros _. split; [reflexivity|eauto].
  - intros Hk. rewrite Hk in Hsel, Hcl. destruct Hcl as [Hcalls Hcl].
    split; [exact Hsel|]. split; [exact Hcalls|].
    intros tp Htp. rewrite Htp in Hcl.
    split; [exact Hcl|]. split; [reflexivity|]. split; reflexivity.
  - intros Hk. rewrite Hk in Hsel, Hcl. destruct Hcl as [Hcl _].
    split; [exact Hsel|]. split; [exact Hcl|]. split; reflexivity.
Qed.

Lemma key_truthiness_selects_path_witness :
  let w := sample_world empty_key_env (inr (reply_with (Some sample_script_text))) in
  let tr := snd (run (document_to_podcast_script w "The sky is blue." None)) in
  getenv w "AZURE_OPENAI_KEY" = Some EmptyString /\
  path_taken tr = Some TokenAuth /\
  clients tr = [token_client_args w sample_token_provider] /\
  api_key (token_client_args w sample_token_provider) = Passed (Some EmptyString) /\
  azure_endpoint (token_client_args w sample_token_provider) = Omitted.
Proof.
  intros w tr.
  destruct (key_truthiness_selects_path w "The sky is blue." None)
    as (Hpath & _ & Hfalsy & _).
  destruct (Hfalsy eq_refl) as (_ & _ & Hclient).
  destruct (Hclient sample_token_provider eq_refl) as (Hcl & Hkey & Hend & _).
  split; [reflexivity|].
  split; [exact (Hpath eq_refl)|].
  split; [exact Hcl|].
  split; [exact Hkey|exact Hend].
Defined.

(** ** Schema validation *)

Lemma validate_dict schema es :
  validate schema (VDict es) = true ->
  type_ok schema (VDict es) = true /\
  required_ok schema es = true /\
  forall k x, In (k, x) es ->
    match property_schema schema k with
    | Some s => validate s x
    | None => additional_ok schema
    end = true.
Proof.
  cbn [validate]. rewrite !andb_true_iff. intros (Hty & Hreq & Hprops).
  split; [exact Hty|]. split; [exact Hreq|].
  clear Hty Hreq.
  induction es as [|[k' x'] es IH]; intros k x Hin; [destruct Hin|].
  apply andb_true_iff in Hprops as [Hhd Htl].
  destruct Hin as [[= <- <-]|Hin]; [exact Hhd|].
  exact (IH Htl k x Hin).
Qed.

Lemma validate_list schema xs s :
  validate schema (VList xs) = true ->
  get "items" schema = Some s ->
  Forall (fun x => validate s x = true) xs.
Proof.
  cbn [validate]. rewrite andb_true_iff. intros [_ H] Hitems.
  rewrite Hitems in H. apply Forall_forall. intros x Hx.
  rewrite forallb_forall in H. apply H. apply list_elem_of_In. exact Hx.
Qed.

Lemma validate_type schema v : validate schema v = true -> type_ok schema v = true.
Proof. destruct v; cbn [validate]; rewrite ?andb_true_iff; tauto. Qed.

Lemma dict_get_In k es x : dict_get k es = Some x -> In (k, x) es.
Proof.
  induction es as [|[k' x'] es IH]; simpl; [discriminate|].
  destruct (decide (k = k')) as [->|]; [intros [= ->]; auto|auto].
Qed.

Lemma required_key schema es names k :
  get "required" schema = Some (VList names) ->
  In (VStr k) names ->
  required_ok schema es = true ->
  exists x, dict_get k es = Some x.
Proof.
  unfold required_ok. intros -> Hin Hall.
  rewrite forallb_forall in Hall.
  specialize (Hall (VStr k) Hin). simpl in Hall.
  apply bool_decide_eq_true_1 in Hall. exact Hall.
Qed.

(** A required property of a validated object is present and validates
    against its own schema. *)
Lemma validate_required schema es names k s :
  validate schema (VDict es) = true ->
  get "required" schema = Some (VList names) ->
  In (VStr k) names ->
  property_schema schema k = Some s ->
  exists x, dict_get k es = Some x /\ validate s x = true.
Proof.
  intros Hv Hreq Hin Hs.
  destruct (validate_dict _ _ Hv) as (_ & Hr & Hprops).
  destruct (required_key _ es _ _ Hreq Hin Hr) as [x Hx].
  exists x. split; [exact Hx|].
  specialize (Hprops k x (dict_get_In _ _ _ Hx)). rewrite Hs in Hprops. exact Hprops.
Qed.

Lemma type_object schema v :
  get "type" schema = Some (VStr "object") -> validate schema v = true ->
  exists es, v = VDict es.
Proof.
  intros Ht Hv. apply validate_type in Hv. unfold type_ok in Hv. rewrite Ht in Hv.
  destruct v; try discriminate Hv. eauto.
Qed.

Lemma type_array schema v :
  get "type" schema = Some (VStr "array") -> validate schema v = true ->
  exists xs, v = VList xs.
Proof.
  intros Ht Hv. apply validate_type in Hv. unfold type_ok in Hv. rewrite Ht in Hv.
  destruct v; try discriminate Hv. eauto.
Qed.

Lemma type_string schema v :
  get "type" schema = Some (VStr "string") -> validate schema v = true ->
  exists s, v = VStr s.
Proof.
  intros Ht Hv. apply validate_type in Hv. unfold type_ok in Hv. rewrite Ht in Hv.
  destruct v; try discriminate Hv. eauto.
Qed.

(** A value that validates against the declared schema has the shape
    the schema is meant to enforce. *)
Lemma validate_podcast_shape v :
  validate podcast_schema v = true -> podcast_shape v.
Proof.
  intros Hv.
  destruct (type_object podcast_schema v eq_refl Hv) as [es ->].
  destruct (validate_required podcast_schema es [VStr "config"; VStr "script"]
              "config" config_schema Hv eq_refl (or_introl eq_refl) eq_refl)
    as (config & Hconfig & Hvc).
  destruct (validate_required podcast_schema es [VStr "config"; VStr "script"]
              "script" script_schema Hv eq_refl (or_intror (or_introl eq_refl)) eq_refl)
    as (script & Hscript & Hvs).
  destruct (type_object config_schema config eq_refl Hvc) as [ces ->].
  destruct (validate_required config_schema ces [VStr "language"]
              "language" language_schema Hvc eq_refl (or_introl eq_refl) eq_refl)
    as (lang & Hlang & Hvl).
  destruct (type_string language_schema lang eq_refl Hvl) as [l ->].
  destruct (type_array script_schema script eq_refl Hvs) as [xs ->].
  exists (VDict ces), l, xs.
  split; [exact Hconfig|]. split; [exact I|]. split; [exact Hlang|]. split; [exact Hscript|].
  pose proof (validate_list script_schema xs entry_schema Hvs eq_refl) as Hall.
  eapply Forall_impl; [exact Hall|].
  intros entry He. simpl in He.
  destruct (type_object entry_schema entry eq_refl He) as [ees ->].
  destruct (validate_dict _ _ He) as (_ & Hreq & _).
  destruct (required_key entry_schema ees [VStr "name"; VStr "message"] "name"
              eq_refl (or_introl eq_refl) Hreq) as [n Hn].
  destruct (required_key entry_schema ees [VStr "name"; VStr "message"] "message"
              eq_refl (or_intror (or_introl eq_refl)) Hreq) as [m Hm].
  split; [exists n; exact Hn | exists m; exact Hm].
Qed.

(** ** The result *)

Lemma document_to_podcast_script_result w document title c :
  fst (run (make_client w)) = inr c ->
  fst (run (document_to_podcast_script w document title)) =
  rbind (chat_completions_create w c (request w document (arg_or DEFAULT_TITLE title)))
        (parse_completion w).
Proof.
  intros Hc. rewrite document_to_podcast_script_run.
  destruct (run (make_client w)) as [[e|c'] tr]; simpl in *; congruence.
Qed.

Lemma document_to_podcast_script_no_client w document title e :
  fst (run (make_client w)) = inl e ->
  fst (run (document_to_podcast_script w document title)) = inl e.
Proof.
  intros Hc. rewrite document_to_podcast_script_run.
  destruct (run (make_client w)) as [[e'|c] tr]; simpl in *; congruence.
Qed.

(** No collaborator is called twice. *)
Lemma document_to_podcast_script_calls_once w document title :
  let tr := snd (run (document_to_podcast_script w document title)) in
  (length (requests tr) <= 1)%nat /\
  (length (clients tr) <= 1)%nat /\
  (token_provider_calls tr <= 1)%nat.
Proof.
  cbv zeta. split.
  - rewrite document_to_podcast_script_requests.
    destruct (fst (run (make_client w))); simpl; lia.
  - destruct (auth_trace w document title) as [_ H].
    destruct (truthy _).
    + destruct H as [-> ->]. simpl. lia.
    + destruct H as [-> ->]. destruct (get_token_provider w); simpl; lia.
Qed.

(** C2, as the code has it: the function does not validate.  When the
    reply's text decodes, the [podcast] field is the decoded value as it
    is; it validates against the declared schema exactly when that value
    does, and then it has the declared shape. *)
Theorem podcast_is_decoded_reply w document title c cc choice rest s v :
  fst (run (make_client w)) = inr c ->
  chat_completions_create w c (request w document (arg_or DEFAULT_TITLE title)) = inr cc ->
  choices cc = choice :: rest ->
  msg_content (message choice) = Some s ->
  json_loads w s = inr v ->
  exists r,
    fst (run (document_to_podcast_script w document title)) = inr r /\
    podcast r = v /\
    validate podcast_schema (podcast r) = validate podcast_schema v /\
    (validate podcast_schema v = true -> podcast_shape (podcast r)).
Proof.
  intros Hc Hcc Hch Hs Hv.
  rewrite (document_to_podcast_script_result _ _ _ _ Hc), Hcc.
  unfold parse_completion; cbn [rbind]. rewrite Hch; cbn [index0 rbind].
  rewrite Hs; cbn [call_json_loads]. rewrite Hv; cbn [rbind].
  eexists. split; [reflexivity|]. cbn [podcast].
  split; [reflexivity|]. split; [reflexivity|].
  apply validate_podcast_shape.
Qed.

Lemma podcast_is_decoded_reply_witness :
  let w := sample_world key_env (inr (reply_with (Some sample_script_text))) in
  exists r,
    fst (run (document_to_podcast_script w "The sky is blue." (Some "Space Talk"))) = inr r /\
    podcast r = sample_script /\
    podcast_shape (podcast r).
Proof.
  intros w.
  destruct (podcast_is_decoded_reply w "The sky is blue." (Some "Space Talk")
              (key_client_args w) (reply_with (Some sample_script_text))
              {| message := {| msg_content := Some sample_script_text |} |} []
              sample_script_text sample_script)
    as (r & Hr & Hp & _ & Hshape); try (vm_compute; reflexivity).
  exists r. split; [exact Hr|]. split; [exact Hp|].
  apply Hshape. vm_compute. reflexivity.
Defined.

(** C2 as stated fails: a reply whose text is the JSON object without
    any member decodes, and the function returns it as [podcast] although
    it has neither [config] nor [script]. *)
Lemma podcast_not_validated_counterexample :
  let w := sample_world key_env (inr (reply_with (Some "{}"))) in
  exists r,
    fst (run (document_to_podcast_script w "The sky is blue." (Some "Space Talk"))) = inr r /\
    podcast r = VDict [] /\
    validate podcast_schema (podcast r) = false /\
    ~ podcast_shape (podcast r).
Proof.
  intros w.
  exists {| podcast := VDict []; usage := Some sample_usage |}.
  split; [vm_compute; reflexivity|].
  split; [reflexivity|].
  split; [reflexivity|].
  intros (config & lang & script & Hconfig & _). discriminate Hconfig.
Qed.

Lemma make_client_failure w document title e :
  failure w document title e ->
  fst (run (make_client w)) = inl e \/
  exists c, fst (run (make_client w)) = inr c /\
            rbind (chat_completions_create w c (request w document title))
                  (parse_completion w) = inl e.
Proof.
  intros [e' Hk Htp | e' Hk Hcl | tp e' Hk Htp Hcl | c e' Hc Hreq
          | c cc choice rest s e' Hc Hreq Hch Hs Hdec].
  - left. rewrite make_client_run, Hk, Htp. reflexivity.
  - left. rewrite make_client_run, Hk. simpl. rewrite Hcl. reflexivity.
  - left. rewrite make_client_run, Hk, Htp. simpl. rewrite Hcl. reflexivity.
  - right. exists c. split; [exact Hc|]. rewrite Hreq. reflexivity.
  - right. exists c. split; [exact Hc|]. rewrite Hreq. cbn [rbind].
    unfold parse_completion. rewrite Hch. cbn [index0 rbind].
    rewrite Hs. cbn [call_json_loads]. rewrite Hdec. reflexivity.
Qed.

(** ** Errors *)

(** C4: when the text of the reply does not decode, the call fails with
    the decoder's own exception and returns no response object; in the
    same way an exception from the token provider, from the client
    constructor or from the request comes out as it was raised.  Nothing
    is tried again: each collaborator is called once at most. *)
Theorem failures_propagate w document title e :
  failure w document title e ->
  let out := run (document_to_podcast_script w document (Some title)) in
  fst out = inl e /\
  (forall r, fst out <> inr r) /\
  (length (requests (snd out)) <= 1)%nat /\
  (length (clients (snd out)) <= 1)%nat /\
  (token_provider_calls (snd out) <= 1)%nat.
Proof.
  intros Hfail. cbv zeta.
  assert (Hout : fst (run (document_to_podcast_script w document (Some title))) = inl e).
  { destruct (make_client_failure _ _ _ _ Hfail) as [Hc | (c & Hc & Hrest)].
    - apply document_to_podcast_script_no_client. exact Hc.
    - rewrite (document_to_podcast_script_result _ _ _ _ Hc). exact Hrest. }
  split; [exact Hout|].
  split; [intros r; rewrite Hout; discriminate|].
  apply document_to_podcast_script_calls_once.
Qed.

Lemma failures_propagate_witness :
  let w := sample_world key_env (inr (reply_with (Some "Sorry, I cannot help with that."))) in
  fst (run (document_to_podcast_script w "The sky is blue." (Some "Space Talk"))) =
  inl (Raised "JSONDecodeError" "Expecting value: line 1 column 1 (char 0)").
Proof.
  intros w.
  refine (proj1 (failures_propagate w "The sky is blue." "Space Talk" _ _)).
  eapply (decode_raises w _ _ (key_client_args w)
            (reply_with (Some "Sorry, I cannot help with that."))
            {| message := {| msg_content := Some "Sorry, I cannot help with that." |} |} []
            "Sorry, I cannot help with that.");
    vm_compute; reflexivity.
Defined.

(** ** The response *)

(** C7: a response that is returned holds, as [podcast], the value the
    text of the first choice decodes to and, as [usage], the usage the
    same completion reports.  The response is built by the last step of
    the function, from these two and nothing else. *)
Theorem response_wraps_content_and_usage w document title r :
  fst (run (document_to_podcast_script w document title)) = inr r ->
  exists c cc choice rest s,
    fst (run (make_client w)) = inr c /\
    chat_completions_create w c (request w document (arg_or DEFAULT_TITLE title)) = inr cc /\
    choices cc = choice :: rest /\
    msg_content (message choice) = Some s /\
    json_loads w s = inr (podcast r) /\
    usage r = cc_usage cc /\
    r = {| podcast := podcast r; usage := cc_usage cc |}.
Proof.
  intros Hr.
  destruct (fst (run (make_client w))) as [e|c] eqn:Hc.
  - rewrite (document_to_podcast_script_no_client _ _ _ _ Hc) in Hr. discriminate.
  - rewrite (document_to_podcast_script_result _ _ _ _ Hc) in Hr.
    destruct (chat_completions_create _ _ _) as [e|cc] eqn:Hcc; [discriminate|].
    cbn [rbind] in Hr. unfold parse_completion in Hr.
    destruct (choices cc) as [|choice rest] eqn:Hch; [discriminate|].
    cbn [index0 rbind] in Hr.
    destruct (msg_content (message choice)) as [s|] eqn:Hs; [|discriminate].
    cbn [call_json_loads] in Hr.
    destruct (json_loads w s) as [e|v] eqn:Hv; [discriminate|].
    cbn [rbind] in Hr. injection Hr as <-.
    exists c, cc, choice, rest, s. cbn [podcast usage]. auto 10.
Qed.

Lemma response_wraps_content_and_usage_witness :
  let w := sample_world key_env (inr (reply_with (Some sample_script_text))) in
  let r := {| podcast := sample_script; usage := Some sample_usage |} in
  fst (run (document_to_podcast_script w "The sky is blue." (Some "Space Talk"))) = inr r /\
  exists c cc choice rest s,
    fst (run (make_client w)) = inr c /\
    chat_completions_create w c (request w "The sky is blue." "Space Talk") = inr cc /\
    choices cc = choice :: rest /\
    msg_content (message choice) = Some s /\
    json_loads w s = inr (podcast r) /\
    usage r = cc_usage cc /\
    r = {| podcast := podcast r; usage := cc_usage cc |}.
Proof.
  intros w r.
  assert (Hr : fst (run (document_to_podcast_script w "The sky is blue." (Some "Space Talk"))) = inr r)
    by (vm_compute; reflexivity).
  split; [exact Hr|].
  exact (response_wraps_content_and_usage w _ _ r Hr).
Defined.

(** C10: only [choices[0]] is read, and without a guard.  A completion
    with no choice makes the call fail with the index error; with a
    first choice the lookup succeeds and the outcome is the decoding of
    that choice alone, whatever the other choices are. *)
Theorem first_choice_only w document title c cc :
  fst (run (make_client w)) = inr c ->
  chat_completions_create w c (request w document (arg_or DEFAULT_TITLE title)) = inr cc ->
  (choices cc = [] ->
     fst (run (document_to_podcast_script w document title)) =
     inl (IndexError "list index out of range")) /\
  (forall choice rest, choices cc = choice :: rest ->
     index0 (choices cc) = inr choice /\
     fst (run (document_to_podcast_script w document title)) =
     rmap (fun v => {| podcast := v; usage := cc_usage cc |})
          (call_json_loads w (msg_content (message choice)))).
Proof.
  intros Hc Hcc.
  rewrite (document_to_podcast_script_result _ _ _ _ Hc), Hcc.
  unfold parse_completion; cbn [rbind].
  split.
  - intros ->. reflexivity.
  - intros choice rest ->. split; reflexivity.
Qed.

Lemma first_choice_only_witness :
  let w := sample_world key_env (inr {| choices := []; cc_usage := Some sample_usage |}) in
  fst (run (document_to_podcast_script w "The sky is blue." (Some "Space Talk"))) =
  inl (IndexError "list index out of range").
Proof.
  intros w.
  refine (proj1 (first_choice_only w "The sky is blue." (Some "Space Talk")
                   (key_client_args w) {| choices := []; cc_usage := Some sample_usage |}
                   _ _) eq_refl);
    vm_compute; reflexivity.
Defined.

(** ** The tokenizer *)

Lemma get_encoding_hit w p e : cache p = Some e -> get_encoding w p = (inr e, p).
Proof. intros H. unfold get_encoding, cache_resource. rewrite H. reflexivity. Qed.

Lemma get_encoding_returns w p e p' :
  get_encoding w p = (inr e, p') ->
  cache p' = Some e /\
  (cache p = Some e /\ p' = p \/
   cache p = None /\
   encoding_for_model w "gpt-4o" (length (tiktoken_calls p)) = inr e /\
   tiktoken_calls p' = tiktoken_calls p ++ ["gpt-4o"]).
Proof.
  unfold get_encoding, cache_resource, get_encoding_body.
  destruct (cache p) as [e0|] eqn:Hcache.
  - intros [= <- <-]. auto.
  - destruct (encoding_for_model w "gpt-4o" _) as [x|e0] eqn:Henc; intros [= <- <-].
    simpl. auto.
Qed.

Lemma get_encoding_times_hit w n p e :
  cache p = Some e -> get_encoding_times w n p = (replicate n (inr e), p).
Proof.
  intros H. induction n as [|n IH]; [reflexivity|].
  cbn [get_encoding_times]. rewrite (get_encoding_hit _ _ _ H), IH. reflexivity.
Qed.

Lemma get_encoding_bound w p r p' :
  bound_to_gpt4o w p -> get_encoding w p = (r, p') -> bound_to_gpt4o w p'.
Proof.
  intros [Hc Hn]. unfold get_encoding, cache_resource, get_encoding_body.
  destruct (cache p) as [e0|] eqn:Hcache.
  - intros [= <- <-]. split; [intros e He; apply Hc; congruence|exact Hn].
  - destruct (encoding_for_model w "gpt-4o" _) as [x|e0] eqn:Henc; intros [= <- <-].
    + split; simpl.
      * intros e He. congruence.
      * apply Forall_app. split; [exact Hn|]. repeat constructor.
    + split; simpl.
      * intros e [= <-]. eauto.
      * apply Forall_app. split; [exact Hn|]. repeat constructor.
Qed.

Lemma get_encoding_times_bound w n p rs p' :
  bound_to_gpt4o w p -> get_encoding_times w n p = (rs, p') -> bound_to_gpt4o w p'.
Proof.
  revert p rs. induction n as [|n IH]; intros p rs Hb; cbn [get_encoding_times].
  - intros [= <- <-]. exact Hb.
  - destruct (get_encoding w p) as [r p1] eqn:H1.
    destruct (get_encoding_times w n p1) as [rs' p2] eqn:H2.
    intros [= <- <-].
    exact (IH _ _ (get_encoding_bound _ _ _ _ Hb H1) H2).
Qed.

Lemma fresh_process_bound w : bound_to_gpt4o w fresh_process.
Proof. split; [discriminate|constructor]. Qed.

(** C6: in a process in which only [get_encoding] touches its cache,
    once a call has returned an encoding every later call returns that
    same object and changes nothing.  The object came from [tiktoken]
    asked for gpt-4o, [tiktoken] is never asked for another model, and
    the environment (AZURE_OPENAI_MODEL_DEPLOYMENT included) has no part
    in it: worlds with the same [tiktoken] give the same runs. *)
Theorem get_encoding_memoized w earlier before p e p' :
  get_encoding_times w earlier fresh_process = (before, p) ->
  get_encoding w p = (inr e, p') ->
  (forall n, get_encoding_times w n p' = (replicate n (inr e), p')) /\
  (exists i, encoding_for_model w "gpt-4o" i = inr e) /\
  Forall (fun name => name = "gpt-4o") (tiktoken_calls p') /\
  (forall w' q, encoding_for_model w' = encoding_for_model w ->
                get_encoding w' q = get_encoding w q).
Proof.
  intros Hbefore Hcall.
  pose proof (get_encoding_times_bound _ _ _ _ _ (fresh_process_bound w) Hbefore) as Hb.
  pose proof (get_encoding_bound _ _ _ _ Hb Hcall) as [Hc' Hn'].
  destruct (get_encoding_returns _ _ _ _ Hcall) as [Hcache _].
  split; [intros n; apply get_encoding_times_hit; exact Hcache|].
  split; [exact (Hc' e Hcache)|].
  split; [exact Hn'|].
  intros w' q Heq. unfold get_encoding, get_encoding_body. rewrite Heq. reflexivity.
Qed.

Lemma get_encoding_memoized_witness :
  let w := sample_world deployment_env (inr (reply_with (Some sample_script_text))) in
  let e := {| enc_id := 0; enc_name := "o200k_base" |} in
  let p' := {| cache := Some e; tiktoken_calls := ["gpt-4o"] |} in
  get_encoding w fresh_process = (inr e, p') /\
  get_encoding_times w 3 p' = ([inr e; inr e; inr e], p').
Proof.
  intros w e p'.
  assert (H1 : get_encoding w fresh_process = (inr e, p')) by reflexivity.
  split; [exact H1|].
  exact (proj1 (get_encoding_memoized w 0 [] fresh_process e p' eq_refl H1) 3%nat).
Defined.

(** ** Further properties of [document_to_podcast_script] *)

Lemma string_app_length (a b : string) :
  String.length (a +:+ b) = (String.length a + String.length b)%nat.
Proof. induction a as [|c a IH]; simpl; [reflexivity|]. rewrite IH. reflexivity. Qed.

Lemma string_app_inv_head (a x y : string) : a +:+ x = a +:+ y -> x = y.
Proof. induction a as [|c a IH]; simpl; [auto|]. intros [= H]. auto. Qed.

Lemma string_app_inv_tail (b x y : string) : x +:+ b = y +:+ b -> x = y.
Proof.
  revert y. induction x as [|c x IH]; intros [|d y] H.
  - reflexivity.
  - apply (f_equal String.length) in H. rewrite !string_app_length in H.
    simpl in H. lia.
  - apply (f_equal String.length) in H. rewrite !string_app_length in H.
    simpl in H. lia.
  - simpl in H. injection H as -> H. f_equal. auto.
Qed.

(** When the client cannot be built (the token provider or the
    constructor raises), the call fails with that exception and stops
    there: no chat-completion request is sent. *)
Theorem no_client_no_request w document title e :
  fst (run (make_client w)) = inl e ->
  let out := run (document_to_podcast_script w document title) in
  fst out = inl e /\
  requests (snd out) = [] /\
  snd out = snd (run (make_client w)).
Proof.
  intros Hc. cbv zeta.
  rewrite document_to_podcast_script_run.
  pose proof (make_client_requests w) as Hreq.
  destruct (run (make_client w)) as [[e'|c] tr]; simpl in *; [|discriminate].
  injection Hc as ->. auto.
Qed.

Lemma no_client_no_request_witness :
  let w := no_identity_world empty_key_env in
  let out := run (document_to_podcast_script w "The sky is blue." None) in
  fst out = inl (Raised "CredentialUnavailableError" "no credential") /\
  requests (snd out) = [] /\
  snd out = [EvTokenProvider].
Proof.
  intros w.
  exact (no_client_no_request w "The sky is blue." None
           (Raised "CredentialUnavailableError" "no credential") eq_refl).
Defined.

(** A request, when one is sent, is the last thing the function does to
    the outside, and it is sent through the client the constructor has
    just returned: all of the authentication steps come before it. *)
Theorem request_is_sent_last w document title c args :
  In (EvCreate c args) (snd (run (document_to_podcast_script w document title))) ->
  fst (run (make_client w)) = inr c /\
  args = request w document (arg_or DEFAULT_TITLE title) /\
  snd (run (document_to_podcast_script w document title)) =
    snd (run (make_client w)) ++ [EvCreate c args].
Proof.
  intros Hin.
  pose proof Hin as Hin'. apply In_requests in Hin'.
  rewrite document_to_podcast_script_requests in Hin'.
  destruct (fst (run (make_client w))) as [e|c'] eqn:Hc; [destruct Hin'|].
  destruct Hin' as [[= <- <-]|[]].
  split; [reflexivity|]. split; [reflexivity|].
  rewrite document_to_podcast_script_run.
  destruct (run (make_client w)) as [[e|c''] tr]; simpl in *; [discriminate|].
  injection Hc as ->. reflexivity.
Qed.

Lemma request_is_sent_last_witness :
  let w := sample_world empty_key_env (inr (reply_with (Some sample_script_text))) in
  let c := token_client_args w sample_token_provider in
  let req := request w "The sky is blue." DEFAULT_TITLE in
  snd (run (document_to_podcast_script w "The sky is blue." None)) =
  [EvTokenProvider; EvClient c; EvCreate c req].
Proof.
  intros w c req.
  assert (Hin : In (EvCreate c req)
                   (snd (run (document_to_podcast_script w "The sky is blue." None)))).
  { assert (Hc : fst (run (make_client w)) = inr c) by (vm_compute; reflexivity).
    apply In_requests. rewrite document_to_podcast_script_requests, Hc.
    left. reflexivity. }
  destruct (request_is_sent_last w _ _ _ _ Hin) as (_ & _ & Htr).
  rewrite Htr. reflexivity.
Defined.

(** A first choice without content ([content] is [None], as for a
    refusal or a tool call) makes the call fail with the [TypeError] of
    [json.loads], after the one request has been sent. *)
Theorem missing_content_is_type_error w document title c cc choice rest :
  fst (run (make_client w)) = inr c ->
  chat_completions_create w c (request w document (arg_or DEFAULT_TITLE title)) = inr cc ->
  choices cc = choice :: rest ->
  msg_content (message choice) = None ->
  let out := run (document_to_podcast_script w document title) in
  fst out =
    inl (TypeError "the JSON object must be str, bytes or bytearray, not NoneType") /\
  requests (snd out) = [(c, request w document (arg_or DEFAULT_TITLE title))].
Proof.
  intros Hc Hcc Hch Hnone. cbv zeta.
  rewrite (document_to_podcast_script_result _ _ _ _ Hc), Hcc.
  rewrite document_to_podcast_script_requests, Hc.
  unfold parse_completion; cbn [rbind]. rewrite Hch; cbn [index0 rbind].
  rewrite Hnone. split; reflexivity.
Qed.

Lemma missing_content_is_type_error_witness :
  let w := sample_world key_env (inr (reply_with None)) in
  fst (run (document_to_podcast_script w "The sky is blue." None)) =
  inl (TypeError "the JSON object must be str, bytes or bytearray, not NoneType").
Proof.
  intros w.
  refine (proj1 (missing_content_is_type_error w "The sky is blue." None
                   (key_client_args w) (reply_with None)
                   {| message := {| msg_content := None |} |} [] _ _ eq_refl eq_refl));
    vm_compute; reflexivity.
Defined.

(** The request keeps the document and the title apart and whole: two
    calls in the same world send the same request only when they were
    given the same document and the same title. *)
Theorem request_determines_document_and_title w d1 t1 d2 t2 :
  request w d1 t1 = request w d2 t2 -> d1 = d2 /\ t1 = t2.
Proof.
  intros H. apply (f_equal messages) in H.
  unfold request, create_args in H; cbn [messages] in H.
  injection H as Hsys Husr.
  split.
  - apply string_app_inv_head in Husr. apply string_app_inv_tail in Husr. exact Husr.
  - unfold interpolate in Hsys.
    apply string_app_inv_head in Hsys. apply string_app_inv_tail in Hsys. exact Hsys.
Qed.

Lemma request_determines_document_and_title_witness :
  let w := sample_world key_env (inr (reply_with (Some sample_script_text))) in
  "The sky is blue." = "The sky is blue." /\ "Space Talk" = "Space Talk".
Proof.
  intros w.
  exact (request_determines_document_and_title w _ _ _ _ eq_refl).
Defined.

(** ** Further properties of [get_encoding] *)

Lemma get_encoding_times_app w a b p :
  get_encoding_times w (a + b) p =
  let (rs, p') := get_encoding_times w a p in
  let (rs', p'') := get_encoding_times w b p' in
  (rs ++ rs', p'').
Proof.
  revert p. induction a as [|a IH]; intros p.
  - simpl. destruct (get_encoding_times w b p). reflexivity.
  - cbn [Nat.add get_encoding_times].
    destruct (get_encoding w p) as [r p1].
    rewrite IH.
    destruct (get_encoding_times w a p1) as [rs p2].
    destruct (get_encoding_times w b p2) as [rs' p3].
    reflexivity.
Qed.

Lemma get_encoding_miss w p :
  cache p = None ->
  get_encoding w p =
  match encoding_for_model w "gpt-4o" (length (tiktoken_calls p)) with
  | inr e => (inr e, {| cache := Some e; tiktoken_calls := tiktoken_calls p ++ ["gpt-4o"] |})
  | inl x => (inl x, {| cache := None; tiktoken_calls := tiktoken_calls p ++ ["gpt-4o"] |})
  end.
Proof.
  intros H. unfold get_encoding, cache_resource, get_encoding_body. rewrite H.
  destruct (encoding_for_model _ _ _); reflexivity.
Qed.

(** A load that fails is not remembered: the call raises what
    [tiktoken] raised, the cache stays empty, and the next call asks
    [tiktoken] again instead of raising the old exception. *)
Theorem failed_load_is_retried w p x p' :
  get_encoding w p = (inl x, p') ->
  encoding_for_model w "gpt-4o" (length (tiktoken_calls p)) = inl x /\
  cache p' = None /\
  tiktoken_calls p' = tiktoken_calls p ++ ["gpt-4o"] /\
  fst (get_encoding w p') =
    encoding_for_model w "gpt-4o" (Datatypes.S (length (tiktoken_calls p))).
Proof.
  intros H.
  destruct (cache p) as [e|] eqn:Hcache.
  - rewrite (get_encoding_hit _ _ _ Hcache) in H. discriminate.
  - rewrite (get_encoding_miss _ _ Hcache) in H.
    destruct (encoding_for_model w "gpt-4o" _) as [x'|e] eqn:Henc; [|discriminate].
    injection H as <- <-.
    split; [reflexivity|]. split; [reflexivity|]. split; [reflexivity|].
    rewrite get_encoding_miss by reflexivity. cbn [tiktoken_calls].
    rewrite length_app, Nat.add_1_r.
    destruct (encoding_for_model w "gpt-4o" (Datatypes.S _)); reflexivity.
Qed.

Lemma failed_load_is_retried_witness :
  let x := Raised "ConnectionError" "Max retries exceeded" in
  let p' := {| cache := None; tiktoken_calls := ["gpt-4o"] |} in
  get_encoding flaky_world fresh_process = (inl x, p') /\
  fst (get_encoding flaky_world p') = inl x.
Proof.
  intros x p'.
  assert (H : get_encoding flaky_world fresh_process = (inl x, p')) by reflexivity.
  split; [exact H|].
  destruct (failed_load_is_retried flaky_world fresh_process x p' H) as (_ & _ & _ & Hnext).
  rewrite Hnext. reflexivity.
Defined.

Lemma get_encoding_times_failing w k : forall p,
  cache p = None ->
  (forall j, (j < k)%nat ->
     exists x, encoding_for_model w "gpt-4o" (length (tiktoken_calls p) + j) = inl x) ->
  get_encoding_times w k p =
  (map (encoding_for_model w "gpt-4o") (seq (length (tiktoken_calls p)) k),
   {| cache := None; tiktoken_calls := tiktoken_calls p ++ replicate k "gpt-4o" |}).
Proof.
  induction k as [|k IH]; intros p Hcache Hfail.
  - simpl. rewrite app_nil_r. destruct p; simpl in *; subst; reflexivity.
  - cbn [get_encoding_times]. rewrite (get_encoding_miss _ _ Hcache).
    destruct (Hfail O ltac:(lia)) as [x Hx]. rewrite Nat.add_0_r in Hx. rewrite Hx.
    rewrite IH; cbn [cache tiktoken_calls].
    + rewrite length_app, Nat.add_1_r. cbn [seq map]. rewrite Hx.
      rewrite <- app_assoc. reflexivity.
    + reflexivity.
    + intros j Hj. rewrite length_app, Nat.add_1_r.
      destruct (Hfail (Datatypes.S j) ltac:(lia)) as [y Hy].
      exists y. rewrite <- Hy. f_equal. lia.
Qed.

(** From a fresh process, if [tiktoken] fails on its first [k] asks and
    then returns an encoding, the first [k] calls raise what [tiktoken]
    raised and every call after them returns that one encoding;
    whatever the number of calls, [tiktoken] is asked [k + 1] times and
    no more. *)
Theorem tokenizer_loaded_once w k e m :
  (forall j, (j < k)%nat -> exists x, encoding_for_model w "gpt-4o" j = inl x) ->
  encoding_for_model w "gpt-4o" k = inr e ->
  get_encoding_times w (k + Datatypes.S m) fresh_process =
  (map (encoding_for_model w "gpt-4o") (seq 0 k) ++ replicate (Datatypes.S m) (inr e),
   {| cache := Some e; tiktoken_calls := replicate (Datatypes.S k) "gpt-4o" |}).
Proof.
  intros Hfail Hok.
  rewrite get_encoding_times_app.
  rewrite (get_encoding_times_failing w k fresh_process eq_refl)
    by (intros j Hj; exact (Hfail j Hj)).
  cbn [fresh_process tiktoken_calls length app].
  cbn [get_encoding_times].
  rewrite get_encoding_miss by reflexivity.
  cbn [tiktoken_calls]. rewrite length_replicate, Hok.
  rewrite get_encoding_times_hit with (e := e) by reflexivity.
  f_equal. f_equal.
  change ["gpt-4o"] with (replicate 1 "gpt-4o").
  rewrite <- replicate_add, Nat.add_1_r. reflexivity.
Qed.

Lemma tokenizer_loaded_once_witness :
  let x := Raised "ConnectionError" "Max retries exceeded" in
  let e := {| enc_id := 2; enc_name := "o200k_base" |} in
  get_encoding_times flaky_world 5 fresh_process =
  ([inl x; inl x; inr e; inr e; inr e],
   {| cache := Some e; tiktoken_calls := ["gpt-4o"; "gpt-4o"; "gpt-4o"] |}).
Proof.
  intros x e.
  refine (tokenizer_loaded_once flaky_world 2 e 2 _ eq_refl).
  intros j Hj. exists x.
  destruct j as [|[|j]]; [reflexivity|reflexivity|lia].
Defined.

(** ** What the schema accepts *)

Lemma validate_dict_iff schema es :
  validate schema (VDict es) = true <->
  type_ok schema (VDict es) = true /\
  required_ok schema es = true /\
  Forall (fun kv =>
            match property_schema schema (fst kv) with
            | Some s => validate s (snd kv)
            | None => additional_ok schema
            end = true) es.
Proof.
  cbn [validate]. rewrite !andb_true_iff.
  assert (Hloop :
    (fix props (es0 : list (string * value)) : bool :=
       match es0 with
       | [] => true
       | (k, v) :: es' =>
           match property_schema schema k with
           | Some s => validate s v
           | None => additional_ok schema
           end && props es'
       end) es = true <->
    Forall (fun kv =>
              match property_schema schema (fst kv) with
              | Some s => validate s (snd kv)
              | None => additional_ok schema
              end = true) es).
  { induction es as [|[k x] es IH].
    - split; [constructor|reflexivity].
    - rewrite andb_true_iff, Forall_cons, IH. reflexivity. }
  rewrite Hloop. tauto.
Qed.

Lemma validate_list_iff schema xs s :
  get "items" schema = Some s ->
  validate schema (VList xs) = true <->
  type_ok schema (VList xs) = true /\ Forall (fun x => validate s x = true) xs.
Proof.
  intros Hitems. cbn [validate]. rewrite Hitems, andb_true_iff, forallb_forall.
  rewrite Forall_forall. split; intros [Ht Hall]; (split; [exact Ht|]).
  - intros x Hx. apply Hall. apply list_elem_of_In. exact Hx.
  - intros x Hx. apply Hall. apply list_elem_of_In. exact Hx.
Qed.

Lemma validate_string schema v :
  get "type" schema = Some (VStr "string") ->
  validate schema v = true <-> string_valued v.
Proof.
  intros Ht. split.
  - intros Hv. destruct (type_string _ _ Ht Hv) as [s ->]. exact I.
  - destruct v; try contradiction. intros _.
    cbn [validate]. unfold type_ok. rewrite Ht. reflexivity.
Qed.

Lemma required_ok_intro schema es names :
  get "required" schema = Some (VList names) ->
  Forall (fun n => exists k, n = VStr k /\ is_Some (dict_get k es)) names ->
  required_ok schema es = true.
Proof.
  unfold required_ok. intros -> Hall. apply forallb_forall.
  rewrite Forall_forall in Hall. intros n Hn.
  destruct (Hall n (proj2 (list_elem_of_In _ _) Hn)) as (k & -> & Hk).
  simpl. apply bool_decide_eq_true_2. exact Hk.
Qed.

Lemma validate_config v : validate config_schema v = true <-> config_conforms v.
Proof.
  split.
  - intros Hv. destruct (type_object config_schema v eq_refl Hv) as [es ->].
    apply validate_dict_iff in Hv as (_ & Hreq & Hall).
    split.
    + destruct (required_key config_schema es [VStr "language"] "language"
                  eq_refl (or_introl eq_refl) Hreq) as [x Hx]. eauto.
    + eapply Forall_impl; [exact Hall|]. intros [k x]; cbn [fst snd].
      change (property_schema config_schema k)
        with (if decide (k = "language") then Some language_schema else None).
      destruct (decide (k = "language")) as [->|]; [|discriminate].
      intros Hx. split; [reflexivity|].
      apply (validate_string language_schema); [reflexivity|exact Hx].
  - destruct v as [| | | | | |es]; try contradiction. intros [Hlang Hall].
    apply validate_dict_iff. split; [reflexivity|]. split.
    + apply (required_ok_intro _ _ [VStr "language"]); [reflexivity|].
      repeat constructor. eauto.
    + eapply Forall_impl; [exact Hall|]. intros [k x]; cbn [fst snd]. intros [-> Hx].
      apply (validate_string language_schema); [reflexivity|exact Hx].
Qed.

Lemma validate_entry v : validate entry_schema v = true <-> entry_conforms v.
Proof.
  split.
  - intros Hv. destruct (type_object entry_schema v eq_refl Hv) as [es ->].
    apply validate_dict_iff in Hv as (_ & Hreq & Hall).
    split; [|split].
    + destruct (required_key entry_schema es [VStr "name"; VStr "message"] "name"
                  eq_refl (or_introl eq_refl) Hreq) as [x Hx]. eauto.
    + destruct (required_key entry_schema es [VStr "name"; VStr "message"] "message"
                  eq_refl (or_intror (or_introl eq_refl)) Hreq) as [x Hx]. eauto.
    + eapply Forall_impl; [exact Hall|]. intros [k x]; cbn [fst snd].
      change (property_schema entry_schema k)
        with (if decide (k = "name") then Some name_schema
              else if decide (k = "message") then Some message_schema else None).
      destruct (decide (k = "name")) as [->|];
        [|destruct (decide (k = "message")) as [->|]; [|discriminate]].
      * intros Hx. split; [auto|].
        apply (validate_string name_schema); [reflexivity|exact Hx].
      * intros Hx. split; [auto|].
        apply (validate_string message_schema); [reflexivity|exact Hx].
  - destruct v as [| | | | | |es]; try contradiction. intros (Hname & Hmsg & Hall).
    apply validate_dict_iff. split; [reflexivity|]. split.
    + apply (required_ok_intro _ _ [VStr "name"; VStr "message"]); [reflexivity|].
      repeat constructor; eauto.
    + eapply Forall_impl; [exact Hall|]. intros [k x]; cbn [fst snd].
      intros [[->| ->] Hx].
      * apply (validate_string name_schema); [reflexivity|exact Hx].
      * apply (validate_string message_schema); [reflexivity|exact Hx].
Qed.

Lemma validate_script v : validate script_schema v = true <-> script_conforms v.
Proof.
  split.
  - intros Hv. destruct (type_array script_schema v eq_refl Hv) as [xs ->].
    apply (validate_list_iff script_schema xs entry_schema eq_refl) in Hv as [_ Hall].
    eapply Forall_impl; [exact Hall|]. intros x. apply validate_entry.
  - destruct v as [| | | | |xs|]; try contradiction. intros Hall.
    apply (validate_list_iff script_schema xs entry_schema eq_refl).
    split; [reflexivity|].
    eapply Forall_impl; [exact Hall|]. intros x. apply validate_entry.
Qed.

(** The declared schema accepts exactly the objects that hold a config
    and a script and nothing else, where the config holds a language
    string and nothing else, and the script is a list of objects that
    hold a name and a message, both strings, and nothing else.  Host
    names and language codes are not restricted further, and the script
    may be empty.  *)
Theorem schema_accepts_exactly v :
  validate podcast_schema v = true <-> podcast_conforms v.
Proof.
  split.
  - intros Hv. destruct (type_object podcast_schema v eq_refl Hv) as [es ->].
    apply validate_dict_iff in Hv as (_ & Hreq & Hall).
    split; [|split].
    + destruct (required_key podcast_schema es [VStr "config"; VStr "script"] "config"
                  eq_refl (or_introl eq_refl) Hreq) as [x Hx]. eauto.
    + destruct (required_key podcast_schema es [VStr "config"; VStr "script"] "script"
                  eq_refl (or_intror (or_introl eq_refl)) Hreq) as [x Hx]. eauto.
    + eapply Forall_impl; [exact Hall|]. intros [k x]; cbn [fst snd].
      change (property_schema podcast_schema k)
        with (if decide (k = "config") then Some config_schema
              else if decide (k = "script") then Some script_schema else None).
      destruct (decide (k = "config")) as [->|];
        [|destruct (decide (k = "script")) as [->|]; [|discriminate]].
      * intros Hx. left. split; [reflexivity|]. apply validate_config. exact Hx.
      * intros Hx. right. split; [reflexivity|]. apply validate_script. exact Hx.
  - destruct v as [| | | | | |es]; try contradiction. intros (Hconfig & Hscript & Hall).
    apply validate_dict_iff. split; [reflexivity|]. split.
    + apply (required_ok_intro _ _ [VStr "config"; VStr "script"]); [reflexivity|].
      repeat constructor; eauto.
    + eapply Forall_impl; [exact Hall|]. intros [k x]; cbn [fst snd].
      intros [[-> Hx]|[-> Hx]].
      * apply validate_config. exact Hx.
      * apply validate_script. exact Hx.
Qed.

Lemma schema_accepts_exactly_witness : podcast_conforms sample_script.
Proof. exact (proj1 (schema_accepts_exactly sample_script) eq_refl). Defined.

(** ** The identity helper and the key path *)

(** With a non-empty key the identity helper has no part in the call:
    whatever [get_token_provider()] would return or raise, the outcome
    and the trace are the same. *)
Theorem key_path_ignores_identity w document title tp :
  truthy (getenv w "AZURE_OPENAI_KEY") = true ->
  run (document_to_podcast_script (with_token_provider w tp) document title) =
  run (document_to_podcast_script w document title).
Proof.
  intros Hkey.
  rewrite !document_to_podcast_script_run, !make_client_run.
  change (getenv (with_token_provider w tp)) with (getenv w).
  rewrite Hkey. reflexivity.
Qed.

Lemma key_path_ignores_identity_witness :
  let w := sample_world key_env (inr (reply_with (Some sample_script_text))) in
  run (document_to_podcast_script (no_identity_world key_env) "The sky is blue." None) =
  run (document_to_podcast_script w "The sky is blue." None).
Proof.
  intros w.
  exact (key_path_ignores_identity w "The sky is blue." None
           (inl (Raised "CredentialUnavailableError" "no credential")) eq_refl).
Defined.
